(** * Verification of the parking-lot scenario (srunner/scenarios/parking.py)

    The scenario class [ParkingScenario] places three supporting actors
    relative to the pose of the ego vehicle, builds a behaviour tree for the
    walker and a list of test criteria, and removes its actors on deletion.

    The Python code is embedded shallowly: the CARLA value types are records,
    the Python object store and the simulator are fields of an explicit
    state, and every method is a computation in a state-and-exception monad
    that keeps the state when an exception is raised, as Python does. *)

From Stdlib Require Import ZArith Reals Lra.
From stdpp Require Import base option list gmap strings.

Local Open Scope Z_scope.
#[local] Set Warnings "-register-all".

(** ** CARLA value types

    [carla.Vector3D] (and its subclass [carla.Location]), [carla.Rotation] and
    [carla.Transform] are plain structs of floats on the C++ side.  The type
    of their coordinates stays a parameter [num]. *)

Record Vector3D (num : Type) : Type := mkVector3D {
  x : num;
  y : num;
  z : num
}.

Record Rotation (num : Type) : Type := mkRotation {
  pitch : num;
  yaw : num;
  roll : num
}.

Record Transform (num : Type) : Type := mkTransform {
  location : Vector3D num;
  rotation : Rotation num
}.

Arguments mkVector3D {num} _ _ _.
Arguments x {num} _.
Arguments y {num} _.
Arguments z {num} _.
Arguments mkRotation {num} _ _ _.
Arguments pitch {num} _.
Arguments yaw {num} _.
Arguments roll {num} _.
Arguments mkTransform {num} _ _.
Arguments location {num} _.
Arguments rotation {num} _.

(** The arithmetic the scenario consumes from CARLA and from Python: the
    conversion of a Python [int] literal, addition, multiplication, and
    [carla.Rotation.get_forward_vector].  Nothing is assumed about them
    here; the laws a property needs are stated where it is proved. *)
Class Carla (num : Type) : Type := {
  of_int : Z → num;
  add : num → num → num;
  mul : num → num → num;
  get_forward_vector : Rotation num → Vector3D num
}.

(** One entry of [actors_info]: the dictionary with the keys ['yaw'], ['k'],
    ['j'] and ['z']. *)
Record PlacementSpec (num : Type) : Type := mkSpec {
  spec_yaw : num;
  spec_k : num;
  spec_j : num;
  spec_z : num
}.

Arguments mkSpec {num} _ _ _ _.
Arguments spec_yaw {num} _.
Arguments spec_k {num} _.
Arguments spec_j {num} _.
Arguments spec_z {num} _.

(** Python references to [carla.Transform] objects, and actor handles. *)
Definition addr : Type := nat.
Definition handle : Type := nat.

(** Exceptions the modelled code can raise. *)
Inductive Exn : Type :=
  | IndexError          (* [l[0]] on an empty list *)
  | AttributeError      (* a method the object does not have *)
  | DanglingReference   (* a reference or handle that denotes no object *).

Inductive Result (A : Type) : Type :=
  | Ok (a : A)
  | Raise (e : Exn).

Arguments Ok {A} _.
Arguments Raise {A} _.

(** ** Behaviour trees and criteria

    The atomic behaviours and trigger conditions the scenario instantiates,
    and the two py_trees composites.  Each constructor carries the arguments
    the scenario passes; [None] is a name left to its default. *)
Inductive ParallelPolicy : Type :=
  | SUCCESS_ON_ALL
  | SUCCESS_ON_ONE.

Inductive Behaviour (num : Type) : Type :=
  | Idle (duration : num)
  | InTimeToArrivalToVehicle (actor other_actor : handle) (time : num)
  | KeepVelocity (actor : handle) (target_velocity : num) (name : string)
  | DriveDistance (actor : handle) (distance : num) (name : string)
  | StopVehicle (actor : handle) (brake_value : num) (name : string)
  | Sequence (name : option string) (children : list (Behaviour num))
  | Parallel (policy : ParallelPolicy) (name : option string)
             (children : list (Behaviour num)).

Arguments Idle {num} _.
Arguments InTimeToArrivalToVehicle {num} _ _ _.
Arguments KeepVelocity {num} _ _ _.
Arguments DriveDistance {num} _ _ _.
Arguments StopVehicle {num} _ _ _.
Arguments Sequence {num} _ _.
Arguments Parallel {num} _ _ _.

Inductive Criterion : Type :=
  | CollisionTest (actor : handle).

(** ** The simulator and the Python object store *)

(** An actor as the simulator keeps it. *)
Record Actor (num : Type) : Type := mkActor {
  blueprint : string;
  pose : Transform num;
  simulate_physics : bool;
  is_alive : bool
}.

Arguments mkActor {num} _ _ _ _.
Arguments blueprint {num} _.
Arguments pose {num} _.
Arguments simulate_physics {num} _.
Arguments is_alive {num} _.

(** What the scenario does to the simulator and to its own actor list, in
    the order in which it does it. *)
Inductive Event (num : Type) : Type :=
  | Spawned (h : handle) (model : string) (spawn_point : Transform num)
  | PhysicsSet (h : handle) (enabled : bool)
  | Owned (h : handle)
  | Destroyed (h : handle)
  | TeardownFailure (h : handle).

Arguments Spawned {num} _ _ _.
Arguments PhysicsSet {num} _ _.
Arguments Owned {num} _.
Arguments Destroyed {num} _.
Arguments TeardownFailure {num} _.

(** The mutable state the methods of the scenario run in:
    - [heap]: the [carla.Transform] objects Python holds references to;
    - [world]: the actors of the simulator, an actor's handle being its index;
    - [trace]: the events so far, oldest first;
    - [other_actors]: the list [self.other_actors]. *)
Record State (num : Type) : Type := mkState {
  heap : gmap addr (Transform num);
  world : list (Actor num);
  trace : list (Event num);
  other_actors : list handle
}.

Arguments mkState {num} _ _ _ _.
Arguments heap {num} _.
Arguments world {num} _.
Arguments trace {num} _.
Arguments other_actors {num} _.

(** The attributes of the scenario object that [__init__] assigns once. *)
Record Self (num : Type) : Type := mkSelf {
  _reference_transform : addr;
  ego_vehicles : list handle;
  _ego_vehicle_distance_driven : num;
  _other_actor_target_velocity : num;
  _other_actor_max_brake : num;
  timeout : num
}.

Arguments mkSelf {num} _ _ _ _ _ _.
Arguments _reference_transform {num} _.
Arguments ego_vehicles {num} _.
Arguments _ego_vehicle_distance_driven {num} _.
Arguments _other_actor_target_velocity {num} _.
Arguments _other_actor_max_brake {num} _.
Arguments timeout {num} _.

(** The monad of the methods: a state transformer that returns a value or
    raises, and keeps the state reached when it raises. *)
Definition M (num A : Type) : Type := State num → Result A * State num.

Global Instance M_ret {num} : MRet (M num) :=
  λ A a s, (Ok a, s).

Global Instance M_bind {num} : MBind (M num) :=
  λ A B f m s,
    match m s with
    | (Ok a, s') => f a s'
    | (Raise e, s') => (Raise e, s')
    end.

Definition raise {num A} (e : Exn) : M num A :=
  λ s, (Raise e, s).

(** [for x in l: body(x)] *)
Fixpoint for_each {num A} (l : list A) (body : A → M num unit) : M num unit :=
  match l with
  | [] => mret ()
  | a :: l' => body a ;; for_each l' body
  end.

(** [l[i]] on a Python list. *)
Definition index {num A} (l : list A) (i : nat) : M num A :=
  match l !! i with
  | Some a => mret a
  | None => raise IndexError
  end.

(** What the simulator decides by itself: whether it accepts the command
    to destroy a live actor. *)
Class Simulator (num : Type) : Type := {
  destroy_accepted : list (Actor num) → handle → bool
}.

Section ParkingScenario.

Context {num : Type} `{!Carla num}.

Implicit Types (s : State num) (self : Self num) (t : Transform num).
Implicit Types (v : Vector3D num) (a : addr) (h : handle).

(** *** State updates *)

Definition set_heap (hp : gmap addr (Transform num)) s : State num :=
  mkState hp (world s) (trace s) (other_actors s).

Definition set_world (w : list (Actor num)) s : State num :=
  mkState (heap s) w (trace s) (other_actors s).

Definition set_other_actors (l : list handle) s : State num :=
  mkState (heap s) (world s) (trace s) l.

Definition log (e : Event num) s : State num :=
  mkState (heap s) (world s) (trace s ++ [e]) (other_actors s).

(** *** Operations on [carla.Vector3D] *)

(** [v1 + v2], the sum [Vector3D.__add__] and [__iadd__] compute. *)
Definition vadd v1 v2 : Vector3D num :=
  mkVector3D (add (x v1) (x v2)) (add (y v1) (y v2)) (add (z v1) (z v2)).

(** [c * v], a number times a vector. *)
Definition rmul (c : num) v : Vector3D num :=
  mkVector3D (mul c (x v)) (mul c (y v)) (mul c (z v)).

(** *** References to [carla.Transform] objects *)

(** Reading through a reference. *)
Definition deref a : M num (Transform num) :=
  λ s, match heap s !! a with
       | Some t => (Ok t, s)
       | None => (Raise DanglingReference, s)
       end.

(** Overwriting the object a reference denotes. *)
Definition assign a t : M num unit :=
  λ s, match heap s !! a with
       | Some _ => (Ok (), set_heap (<[a := t]> (heap s)) s)
       | None => (Raise DanglingReference, s)
       end.

(** [carla.Transform(location, rotation)]: the constructor copies both
    arguments into a new object and returns the reference to it. *)
Definition new_Transform (l : Vector3D num) (r : Rotation num) : M num addr :=
  λ s, let a := fresh (dom (heap s)) in
       (Ok a, set_heap (<[a := mkTransform l r]> (heap s)) s).

(** [obj.location = l] *)
Definition set_location a (l : Vector3D num) : M num unit :=
  t ← deref a;
  assign a (mkTransform l (rotation t)).

(** [obj.rotation.yaw = w] *)
Definition set_yaw a (w : num) : M num unit :=
  t ← deref a;
  assign a (mkTransform (location t)
              (mkRotation (pitch (rotation t)) w (roll (rotation t)))).

(** [obj.location.z = c] *)
Definition set_z a (c : num) : M num unit :=
  t ← deref a;
  assign a (mkTransform (mkVector3D (x (location t)) (y (location t)) c)
              (rotation t)).

(** *** The simulator interface *)

(** Modelled from the spec: the simulator's "actor spawn(kind, Transform)
    -> Actor handle".  The simulator registers a new live actor of the given
    kind at the given pose and returns its handle, the next free index.
    Physics simulation of the new actor is off until it is set. *)
Definition try_spawn_actor (model : string) t : M num handle :=
  λ s, let h := length (world s) in
       (Ok h, log (Spawned h model t)
                (set_world (world s ++ [mkActor model t false true]) s)).

(** Modelled from the spec: [CarlaDataProvider.request_new_actor], which is
    not part of the source at hand.  It spawns the actor at the pose the
    transform object holds at the moment of the call. *)
Definition request_new_actor (model : string) (spawn_point : addr) : M num handle :=
  t ← deref spawn_point;
  try_spawn_actor model t.

(** Modelled from the spec: [carla.Actor.set_simulate_physics], the actor
    command "enable/disable physics". *)
Definition set_simulate_physics h (enabled : bool) : M num unit :=
  λ s, match world s !! h with
       | Some act =>
           (Ok (), log (PhysicsSet h enabled)
                     (set_world (<[h := mkActor (blueprint act) (pose act)
                                          enabled (is_alive act)]> (world s)) s))
       | None => (Raise DanglingReference, s)
       end.

(** [self.other_actors.append(actor)] *)
Definition other_actors_append h : M num unit :=
  λ s, (Ok (), log (Owned h) (set_other_actors (other_actors s ++ [h]) s)).

(** *** [ParkingScenario.spawn_actor] *)

(** Lines 85 to 95: the transform of the new actor, computed in a new
    transform object whose reference is returned. *)
Definition compute_transform (actor_transform : PlacementSpec num)
    (start_transform : addr) : M num addr :=
  start ← deref start_transform;
  transform ← new_Transform (location start) (rotation start);
  let _perp_angle := of_int 90 in
  (* transform.location += actor_transform['k'] * transform.rotation.get_forward_vector() *)
  t ← deref transform;
  set_location transform
    (vadd (location t)
       (rmul (spec_k actor_transform) (get_forward_vector (rotation t))));;
  (* transform.rotation.yaw += _perp_angle *)
  t ← deref transform;
  set_yaw transform (add (yaw (rotation t)) _perp_angle);;
  (* transform.location += actor_transform['j'] * transform.rotation.get_forward_vector() *)
  t ← deref transform;
  set_location transform
    (vadd (location t)
       (rmul (spec_j actor_transform) (get_forward_vector (rotation t))));;
  (* transform.rotation.yaw = start_transform.rotation.yaw + actor_transform["yaw"] *)
  start ← deref start_transform;
  set_yaw transform (add (yaw (rotation start)) (spec_yaw actor_transform));;
  (* transform.location.z += actor_transform['z'] *)
  t ← deref transform;
  set_z transform (add (z (location t)) (spec_z actor_transform));;
  mret transform.

Definition spawn_actor self (actor_name : string)
    (actor_transform : PlacementSpec num) (start_transform : addr) : M num unit :=
  transform ← compute_transform actor_transform start_transform;
  actor ← request_new_actor actor_name transform;
  set_simulate_physics actor true;;
  other_actors_append actor.

(** *** [ParkingScenario._initialize_actors] *)

(** The dictionary literal [actors_info], in the order of its entries, which
    is the order in which [items()] yields them. *)
Definition actors_info : list (string * PlacementSpec num) :=
  [ ("walker.*", mkSpec (of_int 270) (of_int 10) (of_int 5) (of_int 0));
    ("static.prop.container", mkSpec (of_int 90) (of_int 25) (of_int 0) (of_int 0));
    ("static.prop.shoppingcart", mkSpec (of_int 0) (of_int 2) (of_int 15) (of_int 2)) ].

Definition _initialize_actors self : M num unit :=
  for_each actors_info (λ '(actor_name, actor_transform),
    spawn_actor self actor_name actor_transform (_reference_transform self)).

(** *** [ParkingScenario._create_behavior] *)

(** [composite.add_child(child)] of py_trees: the child is appended to the
    children of a composite; a leaf has no such method. *)
Definition add_child (composite child : Behaviour num) : M num (Behaviour num) :=
  match composite with
  | Sequence name children => mret (Sequence name (children ++ [child]))
  | Parallel policy name children => mret (Parallel policy name (children ++ [child]))
  | _ => raise AttributeError
  end.

Definition get_other_actors : M num (list handle) :=
  λ s, (Ok (other_actors s), s).


Definition _create_behavior self : M num (Behaviour num) :=
  let ego_stand := Idle (of_int 60) in
  let _dist_to_trigger := of_int 5 in
  let _dist_actor_travel := of_int 10 in
  let _time_to_reach := of_int 5 in
  let scenario_sequence : Behaviour num := Sequence None [] in
  (* leaf nodes *)
  ego ← index (ego_vehicles self) 0;
  others ← get_other_actors;
  other ← index others 0;
  let start_condition := InTimeToArrivalToVehicle ego other _time_to_reach in
  others ← get_other_actors;
  other ← index others 0;
  let actor_velocity :=
    KeepVelocity other (_other_actor_target_velocity self) "walker velocity" in
  others ← get_other_actors;
  other ← index others 0;
  let actor_drive := DriveDistance other _dist_actor_travel "walker drive distance" in
  others ← get_other_actors;
  other ← index others 0;
  let actor_stop_crossed_lane :=
    StopVehicle other (_other_actor_max_brake self) "walker stop" in
  (* non leaf nodes *)
  let scenario_sequence : Behaviour num := Sequence None [] in
  let keep_velocity : Behaviour num :=
    Parallel SUCCESS_ON_ONE (Some "keep velocity other") [] in
  (* building tree *)
  scenario_sequence ← add_child scenario_sequence start_condition;
  scenario_sequence ← add_child scenario_sequence actor_velocity;
  scenario_sequence ← add_child scenario_sequence actor_drive;
  scenario_sequence ← add_child scenario_sequence actor_stop_crossed_lane;
  scenario_sequence ← add_child scenario_sequence ego_stand;
  mret scenario_sequence.

(** *** [ParkingScenario._create_test_criteria] *)

Definition _create_test_criteria self : M num (list Criterion) :=
  let criteria := [] in
  ego ← index (ego_vehicles self) 0;
  let collision_criterion := CollisionTest ego in
  let criteria := criteria ++ [collision_criterion] in
  mret criteria.

(** *** Teardown *)

Context `{!Simulator num}.





(** ** The specification's descriptions *)

(** *** The Geometry Engine, in the words of the specification *)

(** "advance [d] units along the forward vector" *)
Definition advance (d : num) t : Transform num :=
  mkTransform (vadd (location t) (rmul d (get_forward_vector (rotation t))))
    (rotation t).

(** "rotate by a fixed 90 degree perpendicular turn" *)
Definition turn (degrees : num) t : Transform num :=
  mkTransform (location t)
    (mkRotation (pitch (rotation t)) (add (yaw (rotation t)) degrees)
       (roll (rotation t))).

(** "overwrite yaw" *)
Definition overwrite_yaw (w : num) t : Transform num :=
  mkTransform (location t)
    (mkRotation (pitch (rotation t)) w (roll (rotation t))).

(** "add [spec.z] to the vertical coordinate" *)
Definition lift (dz : num) t : Transform num :=
  mkTransform
    (mkVector3D (x (location t)) (y (location t)) (add (z (location t)) dz))
    (rotation t).

Definition geometry_engine (reference : Transform num)
    (spec : PlacementSpec num) : Transform num :=
  let t1 := advance (spec_k spec) reference in
  let t2 := turn (of_int 90) t1 in
  let t3 := advance (spec_j spec) t2 in
  let t4 := overwrite_yaw (add (yaw (rotation reference)) (spec_yaw spec)) t3 in
  lift (spec_z spec) t4.

(** "the reference Transform with only yaw offset applied" *)
Definition yaw_offset_only (reference : Transform num) (offset : num) :
    Transform num :=
  mkTransform (location reference)
    (mkRotation (pitch (rotation reference))
       (add (yaw (rotation reference)) offset)
       (roll (rotation reference))).

(** *** The composition of the behaviour tree *)

Inductive NodeKind : Type :=
  | TriggerGate
  | VelocityApply
  | DistanceTrack
  | Stop
  | IdleNode.

Inductive Composition : Type :=
  | Leaf (kind : NodeKind)
  | SEQUENCE (children : list Composition)
  | PARALLEL_SUCCEED_ON_FIRST (children : list Composition)
  | PARALLEL_SUCCEED_ON_ALL (children : list Composition).

(** The composition a behaviour tree has: its node kinds and policies,
    without the actors, parameters and names. *)
Fixpoint composition (b : Behaviour num) : Composition :=
  match b with
  | Idle _ => Leaf IdleNode
  | InTimeToArrivalToVehicle _ _ _ => Leaf TriggerGate
  | KeepVelocity _ _ _ => Leaf VelocityApply
  | DriveDistance _ _ _ => Leaf DistanceTrack
  | StopVehicle _ _ _ => Leaf Stop
  | Sequence _ children => SEQUENCE (map composition children)
  | Parallel SUCCESS_ON_ONE _ children =>
      PARALLEL_SUCCEED_ON_FIRST (map composition children)
  | Parallel SUCCESS_ON_ALL _ children =>
      PARALLEL_SUCCEED_ON_ALL (map composition children)
  end.

(** "SEQUENCE[ trigger-gate, PARALLEL_SUCCEED_ON_FIRST[ velocity-apply,
    distance-track ], stop, idle ]" *)
Definition specified_composition : Composition :=
  SEQUENCE [ Leaf TriggerGate;
             PARALLEL_SUCCEED_ON_FIRST [Leaf VelocityApply; Leaf DistanceTrack];
             Leaf Stop;
             Leaf IdleNode ].

(** *** Observations on the simulator *)


(** The actor [spawn_actor] leaves in the simulator for a given model and
    spawn point: alive, with physics simulation on. *)
Definition supporting_actor (model : string) (spawn_point : Transform num) :
    Actor num :=
  mkActor model spawn_point true true.

(** The events of one call of [spawn_actor] that spawns [h]. *)
Definition spawn_events h (model : string) (spawn_point : Transform num) :
    list (Event num) :=
  [Spawned h model spawn_point; PhysicsSet h true; Owned h].

(** The tree [_create_behavior] returns for the first ego vehicle [ego] and
    the first of the other actors, [walker]: the five leaves, in the order
    of the five [add_child] calls, under the one sequence. *)
Definition walker_sequence self (ego walker : handle) : Behaviour num :=
  Sequence None
    [ InTimeToArrivalToVehicle ego walker (of_int 5);
      KeepVelocity walker (_other_actor_target_velocity self) "walker velocity";
      DriveDistance walker (of_int 10) "walker drive distance";
      StopVehicle walker (_other_actor_max_brake self) "walker stop";
      Idle (of_int 60) ].

(** The state one call of [spawn_actor] leads to, for an entry of
    [actors_info] and the transform the start reference denotes. *)
Definition after_spawn (reference : Transform num)
    (entry : string * PlacementSpec num) s : State num :=
  let spawn_point := geometry_engine reference entry.2 in
  let h := length (world s) in
  mkState (<[fresh (dom (heap s)) := spawn_point]> (heap s))
    (world s ++ [supporting_actor entry.1 spawn_point])
    (trace s ++ spawn_events h entry.1 spawn_point)
    (other_actors s ++ [h]).

Definition after_spawns (reference : Transform num)
    (entries : list (string * PlacementSpec num)) s : State num :=
  foldl (λ s' entry, after_spawn reference entry s') s entries.

(** The events of spawning [entries] one after the other, the first actor
    getting the handle [h]. *)
Fixpoint spawns_events (reference : Transform num) h
    (entries : list (string * PlacementSpec num)) : list (Event num) :=
  match entries with
  | [] => []
  | entry :: entries' =>
      spawn_events h entry.1 (geometry_engine reference entry.2)
        ++ spawns_events reference (S h) entries'
  end.

(** In a trace, every spawn is followed at once by the enabling of the
    physics of the spawned actor, and then by its entry in the list of
    owned actors. *)
Definition spawn_discipline (tr : list (Event num)) : Prop :=
  ∀ pre h model spawn_point post,
    tr = pre ++ Spawned h model spawn_point :: post →
    ∃ post', post = PhysicsSet h true :: Owned h :: post'.



(** The actors the nodes of a behaviour tree refer to, from left to
    right. *)
Fixpoint actors_of (b : Behaviour num) : list handle :=
  match b with
  | Idle _ => []
  | InTimeToArrivalToVehicle actor other_actor _ => [actor; other_actor]
  | KeepVelocity actor _ _ => [actor]
  | DriveDistance actor _ _ => [actor]
  | StopVehicle actor _ _ => [actor]
  | Sequence _ children => concat (map actors_of children)
  | Parallel _ _ children => concat (map actors_of children)
  end.

(** The owned actors are in order: no actor is owned twice, and every owned
    actor is an actor of the simulator that is alive and has its physics
    simulated. *)
Definition owned_in_order s : Prop :=
  NoDup (other_actors s)
  ∧ ∀ h, h ∈ other_actors s →
      ∃ act, world s !! h = Some act
             ∧ is_alive act = true
             ∧ simulate_physics act = true.

End ParkingScenario.

(** ** Real-number coordinates

    An instance of the arithmetic in which coordinates are real numbers,
    sums and products are exact, and the forward vector is that of exact
    trigonometry: with yaw and pitch in degrees, (cos yaw * cos pitch,
    sin yaw * cos pitch, sin pitch).  It leaves the rounding of CARLA's
    floats out; it serves to run the scenario in concrete scenes. *)
Module RealModel.

Local Open Scope R_scope.

Definition to_radians (degrees : R) : R := degrees * PI / 180.

Definition forward_vector (r : Rotation R) : Vector3D R :=
  mkVector3D (cos (to_radians (yaw r)) * cos (to_radians (pitch r)))
             (sin (to_radians (yaw r)) * cos (to_radians (pitch r)))
             (sin (to_radians (pitch r))).

#[export] Instance Carla_R : Carla R := {|
  of_int := IZR;
  add := Rplus;
  mul := Rmult;
  get_forward_vector := forward_vector
|}.

(** A simulator that accepts every command to destroy a live actor. *)
#[export] Instance accepting : Simulator R := {|
  destroy_accepted := λ _ _, true
|}.



(** A scene to run the scenario in: the ego vehicle at the origin, facing
    along the x axis, is the only actor, and Python holds no transform. *)
Definition at_origin : Transform R :=
  mkTransform (mkVector3D 0 0 0) (mkRotation 0 0 0).

Definition ego_only : State R :=
  mkState ∅ [mkActor "vehicle.ego" at_origin true true] [] [].

(** The same scene once [__init__] has read the pose of the ego vehicle. *)
Definition ego_read : State R :=
  mkState {[ 0%nat := at_origin ]} [mkActor "vehicle.ego" at_origin true true] [] [].

Definition parking_self : Self R :=
  mkSelf 0%nat [0%nat] 40 4 1 200.

(** A store that holds one transform, at the reference 0, and a simulator
    without actors. *)
Definition holding (reference : Transform R) : State R :=
  mkState {[ 0%nat := reference ]} [] [] [].

(** Another state with the pose of the ego vehicle in the store: at the
    reference 7, next to a second transform, with two actors in the
    simulator, of which the scenario owns one. *)
Definition later_scene : State R :=
  mkState {[ 7%nat := at_origin;
             2%nat := mkTransform (mkVector3D 1 2 3) (mkRotation 0 45 0) ]}
    [ mkActor "vehicle.ego" at_origin true true;
      mkActor "static.prop.cone" at_origin false true ]
    [ Spawned 1%nat "static.prop.cone" at_origin ]
    [ 1%nat ].

(** The scene after the three supporting actors have been spawned. *)
Definition parked : State R :=
  after_spawns at_origin actors_info ego_read.


(** The placement specs of the walker, and of an actor put at the
    reference pose itself. *)
Definition walker_spec : PlacementSpec R := mkSpec 270 10 5 0.

Definition no_offset_spec : PlacementSpec R := mkSpec 270 0 0 0.

End RealModel.

(** * Properties *)

Section Execution.

Context {num : Type} `{!Carla num}.

Implicit Types (s : State num) (self : Self num) (t : Transform num).
Implicit Types (a : addr) (h : handle).

(** ** Running computations *)

Lemma bind_ok {A B} (m : M num A) (f : A → M num B) s x s' :
  m s = (Ok x, s') → (m ≫= f) s = f x s'.
Proof. intros Hm. unfold mbind, M_bind. now rewrite Hm. Qed.

Lemma bind_raise {A B} (m : M num A) (f : A → M num B) s e s' :
  m s = (Raise e, s') → (m ≫= f) s = (Raise e, s').
Proof. intros Hm. unfold mbind, M_bind. now rewrite Hm. Qed.

Lemma ret_run {A} (x : A) s : (mret x : M num A) s = (Ok x, s).
Proof. reflexivity. Qed.

Lemma deref_run s a t : heap s !! a = Some t → deref a s = (Ok t, s).
Proof. intros Ha. unfold deref. now rewrite Ha. Qed.

Lemma assign_run s a t0 t :
  heap s !! a = Some t0 →
  assign a t s = (Ok (), set_heap (<[a := t]> (heap s)) s).
Proof. intros Ha. unfold assign. now rewrite Ha. Qed.

(** The reference [new_Transform] returns denotes no earlier object. *)
Lemma fresh_unused s : heap s !! fresh (dom (heap s)) = None.
Proof. apply not_elem_of_dom, is_fresh. Qed.

Lemma fresh_differs s a t : heap s !! a = Some t → fresh (dom (heap s)) ≠ a.
Proof.
  intros Ha Heq. pose proof (fresh_unused s) as Hnone.
  rewrite Heq in Hnone. congruence.
Qed.

(** The placement computation, run from any state in which the start
    reference denotes [reference]: it returns a new reference and stores
    the computed transform there, and changes nothing else. *)
Lemma compute_transform_run s a reference spec :
  heap s !! a = Some reference →
  compute_transform spec a s =
    (Ok (fresh (dom (heap s))),
     set_heap (<[fresh (dom (heap s)) := geometry_engine reference spec]> (heap s)) s).
Proof.
  intros Ha. pose proof (fresh_differs s a reference Ha) as Hne.
  destruct reference as [[lx ly lz] [rp ry rr]].
  unfold compute_transform, set_location, set_yaw, set_z, new_Transform.
  unfold mbind, M_bind, mret, M_ret, deref, assign, set_heap. cbn.
  rewrite Ha. cbn.
  repeat (rewrite ?lookup_insert_eq, ?insert_insert_eq; cbn;
          rewrite ?(lookup_insert_ne _ _ _ _ Hne), ?Ha; cbn).
  reflexivity.
Qed.

Lemma insert_last {A} (l : list A) (x0 x1 : A) :
  <[length l := x1]> (l ++ [x0]) = l ++ [x1].
Proof. induction l as [|x2 l IH]; cbn; [reflexivity | now f_equal]. Qed.

(** One call of [spawn_actor]. *)
Lemma spawn_actor_run self s a reference name spec :
  heap s !! a = Some reference →
  spawn_actor self name spec a s = (Ok (), after_spawn reference (name, spec) s).
Proof.
  intros Ha. unfold spawn_actor.
  rewrite (bind_ok _ _ _ _ _ (compute_transform_run s a reference spec Ha)).
  unfold request_new_actor, try_spawn_actor, set_simulate_physics,
    other_actors_append, deref, mbind, M_bind, log, set_world, set_heap,
    set_other_actors. cbn.
  rewrite lookup_insert_eq. cbn.
  rewrite list_lookup_middle by reflexivity. cbn.
  rewrite insert_last. unfold after_spawn, spawn_events, supporting_actor. cbn.
  now rewrite <- !app_assoc.
Qed.

Lemma after_spawn_reference s a reference entry :
  heap s !! a = Some reference →
  heap (after_spawn reference entry s) !! a = Some reference.
Proof.
  intros Ha. cbn. rewrite lookup_insert_ne; [assumption|].
  now apply fresh_differs with reference.
Qed.

(** The loop of [_initialize_actors], over any list of entries. *)
Lemma spawn_loop_run self s a reference entries :
  heap s !! a = Some reference →
  for_each entries (λ '(actor_name, actor_transform),
    spawn_actor self actor_name actor_transform a) s
  = (Ok (), after_spawns reference entries s).
Proof.
  revert s. induction entries as [|[name spec] entries IH]; intros s Ha.
  - reflexivity.
  - cbn [for_each].
    rewrite (bind_ok _ _ _ _ _ (spawn_actor_run self s a reference name spec Ha)).
    rewrite IH by now apply after_spawn_reference.
    reflexivity.
Qed.

Lemma initialize_actors_run self s reference :
  heap s !! _reference_transform self = Some reference →
  _initialize_actors self s = (Ok (), after_spawns reference actors_info s).
Proof. intros Ha. unfold _initialize_actors. now apply spawn_loop_run. Qed.

(** What the states of the loop hold. *)
Lemma after_spawns_reference s a reference entries :
  heap s !! a = Some reference →
  heap (after_spawns reference entries s) !! a = Some reference.
Proof.
  revert s. induction entries as [|entry entries IH]; intros s Ha; cbn.
  - assumption.
  - apply IH. now apply after_spawn_reference.
Qed.

Lemma after_spawns_world s reference entries :
  world (after_spawns reference entries s)
  = world s ++ map (λ entry, supporting_actor entry.1
                               (geometry_engine reference entry.2)) entries.
Proof.
  revert s. induction entries as [|entry entries IH]; intros s; cbn.
  - now rewrite app_nil_r.
  - unfold after_spawns in IH. rewrite IH. cbn. now rewrite <- app_assoc.
Qed.

Lemma after_spawns_other_actors s reference entries :
  other_actors (after_spawns reference entries s)
  = other_actors s ++ seq (length (world s)) (length entries).
Proof.
  revert s. induction entries as [|entry entries IH]; intros s; cbn.
  - now rewrite app_nil_r.
  - unfold after_spawns in IH. rewrite IH. cbn.
    rewrite length_app, <- app_assoc. cbn.
    now rewrite Nat.add_1_r.
Qed.

Lemma after_spawns_trace s reference entries :
  trace (after_spawns reference entries s)
  = trace s ++ spawns_events reference (length (world s)) entries.
Proof.
  revert s. induction entries as [|entry entries IH]; intros s; cbn.
  - now rewrite app_nil_r.
  - unfold after_spawns in IH. rewrite IH. cbn.
    rewrite length_app, <- app_assoc. cbn.
    now rewrite Nat.add_1_r.
Qed.

Lemma after_spawns_heap_old s reference entries a t :
  heap s !! a = Some t →
  heap (after_spawns reference entries s) !! a = Some t.
Proof.
  revert s. induction entries as [|entry entries IH]; intros s Ha; cbn.
  - assumption.
  - apply IH. cbn. rewrite lookup_insert_ne; [assumption|].
    now apply fresh_differs with t.
Qed.

Lemma spawns_events_discipline reference h entries :
  spawn_discipline (spawns_events reference h entries).
Proof.
  revert h. induction entries as [|entry entries IH]; intros h0.
  - intros pre h model p post Heq. now destruct pre.
  - intros pre h model p post Heq. cbn in Heq.
    destruct pre as [|e1 [|e2 [|e3 pre]]]; cbn in Heq.
    + injection Heq as -> _ _ <-. eauto.
    + discriminate.
    + discriminate.
    + injection Heq as _ _ _ Heq. now apply (IH (S h0) pre h model p post).
Qed.

End Execution.

Section Placement.

Context {num : Type} `{!Carla num}.

Implicit Types (s : State num) (self : Self num) (t : Transform num).
Implicit Types (a : addr) (h : handle).

(** The coordinates of the placement: from the reference location, [k]
    times the forward vector of the reference rotation, plus [j] times the
    forward vector of that rotation turned by 90 degrees of yaw, and [z]
    more on the vertical axis; pitch and roll are those of the reference. *)
Lemma geometry_engine_coordinates reference spec :
  let r := rotation reference in
  let f := get_forward_vector r in
  let g := get_forward_vector
             (mkRotation (pitch r) (add (yaw r) (of_int 90)) (roll r)) in
  let l := location reference in
  geometry_engine reference spec =
    mkTransform
      (mkVector3D
         (add (add (x l) (mul (spec_k spec) (x f))) (mul (spec_j spec) (x g)))
         (add (add (y l) (mul (spec_k spec) (y f))) (mul (spec_j spec) (y g)))
         (add (add (add (z l) (mul (spec_k spec) (z f))) (mul (spec_j spec) (z g)))
            (spec_z spec)))
      (mkRotation (pitch r) (add (yaw r) (spec_yaw spec)) (roll r)).
Proof. reflexivity. Qed.

(** C2: for every reference transform and every placement spec, the
    placement computation of [spawn_actor] returns a transform object that
    holds the transform of the specification's algorithm: start at the
    reference, advance k along its forward vector, turn the yaw by 90
    degrees, advance j along the new forward vector, overwrite the yaw with
    reference.yaw + spec.yaw, and add spec.z to the vertical coordinate. *)
Theorem placement_follows_algorithm s a reference spec :
  heap s !! a = Some reference →
  ∃ a' s', compute_transform spec a s = (Ok a', s')
           ∧ heap s' !! a' = Some (geometry_engine reference spec).
Proof.
  intros Ha. eexists _, _. split.
  - eapply compute_transform_run; eassumption.
  - cbn. apply lookup_insert_eq.
Qed.

(** C4: with k = 0, j = 0 and z = 0 the placement computation returns the
    reference transform with only the yaw offset applied: the location, the
    pitch and the roll of the reference, and the yaw reference.yaw +
    spec.yaw.  With k = 0 alone, or j = 0 alone, it returns the transform the
    other offsets give, the zero offset contributing nothing.  The
    computation uses sums and products only, and the two laws of zero it
    relies on are hypotheses. *)
Theorem zero_offsets_keep_reference s a reference spec :
  (∀ c, mul (of_int 0) c = of_int 0) →
  (∀ c, add c (of_int 0) = c) →
  heap s !! a = Some reference →
  ∃ a' s' t,
    compute_transform spec a s = (Ok a', s')
    ∧ heap s' !! a' = Some t
    ∧ (spec_k spec = of_int 0 → spec_j spec = of_int 0 →
       spec_z spec = of_int 0 →
       t = yaw_offset_only reference (spec_yaw spec))
    ∧ (spec_k spec = of_int 0 →
       t = lift (spec_z spec)
             (overwrite_yaw (add (yaw (rotation reference)) (spec_yaw spec))
                (advance (spec_j spec) (turn (of_int 90) reference))))
    ∧ (spec_j spec = of_int 0 →
       t = lift (spec_z spec)
             (overwrite_yaw (add (yaw (rotation reference)) (spec_yaw spec))
                (advance (spec_k spec) reference))).
Proof.
  intros Hmul Hadd Ha. eexists _, _, _.
  split; [eapply compute_transform_run; eassumption|].
  split; [cbn; apply lookup_insert_eq|].
  rewrite geometry_engine_coordinates.
  destruct reference as [[lx ly lz] [rp ry rr]]. cbn.
  split; [|split].
  - intros -> -> ->. unfold yaw_offset_only. cbn.
    now rewrite !Hmul, !Hadd.
  - intros ->. unfold lift, overwrite_yaw, advance, turn. cbn.
    now rewrite !Hmul, !Hadd.
  - intros ->. unfold lift, overwrite_yaw, advance. cbn.
    now rewrite !Hmul, !Hadd.
Qed.

(** C5: the placement is determined by the reference transform and the
    placement spec alone.  Two invocations, from any two states of the
    object store, of the simulator and of the scenario, and through any two
    references, compute the same transform and spawn the actor at it. *)
Theorem placement_deterministic self1 self2 s1 s2 a1 a2 name reference spec :
  heap s1 !! a1 = Some reference →
  heap s2 !! a2 = Some reference →
  ∃ t a1' s1' a2' s2' s1'' s2'',
    compute_transform spec a1 s1 = (Ok a1', s1')
    ∧ compute_transform spec a2 s2 = (Ok a2', s2')
    ∧ heap s1' !! a1' = Some t
    ∧ heap s2' !! a2' = Some t
    ∧ spawn_actor self1 name spec a1 s1 = (Ok (), s1'')
    ∧ spawn_actor self2 name spec a2 s2 = (Ok (), s2'')
    ∧ pose <$> last (world s1'') = Some t
    ∧ pose <$> last (world s2'') = Some t.
Proof.
  intros H1 H2. exists (geometry_engine reference spec).
  eexists _, _, _, _, _, _.
  split; [eapply compute_transform_run; eassumption|].
  split; [eapply compute_transform_run; eassumption|].
  split; [cbn; apply lookup_insert_eq|].
  split; [cbn; apply lookup_insert_eq|].
  split; [eapply spawn_actor_run; eassumption|].
  split; [eapply spawn_actor_run; eassumption|].
  cbn. now rewrite !last_snoc.
Qed.

(** C9: [spawn_actor] computes the placement in a new transform object and
    changes no transform object that existed before, the reference
    transform included; and after the loop of [_initialize_actors] the
    reference still denotes the same transform, every supporting actor
    having been placed relative to it. *)
Theorem reference_transform_unchanged self s reference :
  heap s !! _reference_transform self = Some reference →
  (∀ name spec, ∃ a' s1 s2,
     compute_transform spec (_reference_transform self) s = (Ok a', s1)
     ∧ heap s !! a' = None
     ∧ spawn_actor self name spec (_reference_transform self) s = (Ok (), s2)
     ∧ (∀ b t, heap s !! b = Some t → heap s2 !! b = Some t))
  ∧ ∃ s', _initialize_actors self s = (Ok (), s')
          ∧ heap s' !! _reference_transform self = Some reference
          ∧ (∀ b t, heap s !! b = Some t → heap s' !! b = Some t)
          ∧ pose <$> drop (length (world s)) (world s')
            = (λ entry, geometry_engine reference entry.2) <$> actors_info.
Proof.
  intros Ha. split.
  - intros name spec. eexists _, _, _.
    split; [eapply compute_transform_run; eassumption|].
    split; [apply fresh_unused|].
    split; [eapply spawn_actor_run; eassumption|].
    intros b t Hb. cbn. rewrite lookup_insert_ne; [assumption|].
    now apply fresh_differs with t.
  - eexists. split; [eapply initialize_actors_run; eassumption|].
    split; [now apply after_spawns_reference|].
    split; [intros b t Hb; now apply after_spawns_heap_old|].
    rewrite after_spawns_world, drop_app_length. reflexivity.
Qed.


End Placement.

Section Scenario.

Context {num : Type} `{!Carla num}.

Implicit Types (s : State num) (self : Self num) (t : Transform num).
Implicit Types (a : addr) (h : handle).

(** ** The behaviour tree and the criteria *)

Lemma index_head {A} (x0 : A) (l : list A) s :
  index (num := num) (x0 :: l) 0 s = (Ok x0, s).
Proof. reflexivity. Qed.

Lemma create_behavior_run self s :
  _create_behavior self s =
    (match ego_vehicles self, other_actors s with
     | ego :: _, walker :: _ => Ok (walker_sequence self ego walker)
     | _, _ => Raise IndexError
     end, s).
Proof.
  unfold _create_behavior.
  destruct (ego_vehicles self) as [|ego evs]; [reflexivity|].
  unfold mbind, M_bind, get_other_actors. cbn.
  destruct (other_actors s) as [|walker others] eqn:Hothers; [reflexivity|].
  repeat (rewrite ?index_head; cbn; rewrite ?Hothers).
  reflexivity.
Qed.

(** C1: the tree [_create_behavior] returns is the sequence of the five
    leaves trigger-gate, velocity-apply, distance-track, stop and idle.  The
    parallel node with the policy succeed-on-first is constructed, but
    neither given children nor added to the sequence, so the returned tree
    is not the specified composition.  The method raises only when there is
    no ego vehicle or no other actor. *)
Theorem behavior_tree_is_flat_sequence self s :
  match (_create_behavior self s).1 with
  | Ok tree =>
      composition tree =
        SEQUENCE [Leaf TriggerGate; Leaf VelocityApply; Leaf DistanceTrack;
                  Leaf Stop; Leaf IdleNode]
      ∧ composition tree ≠ specified_composition
  | Raise e =>
      e = IndexError ∧ (ego_vehicles self = [] ∨ other_actors s = [])
  end.
Proof.
  rewrite create_behavior_run. cbn.
  destruct (ego_vehicles self) as [|ego evs]; [now auto|].
  destruct (other_actors s) as [|walker others]; [now auto|].
  split; [reflexivity | discriminate].
Qed.

Lemma criteria_run self s :
  _create_test_criteria self s =
    (match ego_vehicles self with
     | ego :: _ => Ok [CollisionTest ego]
     | [] => Raise IndexError
     end, s).
Proof.
  unfold _create_test_criteria.
  destruct (ego_vehicles self) as [|ego evs]; reflexivity.
Qed.

(** C6: [_create_test_criteria] returns the list of exactly one criterion,
    the collision test on the first ego vehicle, and leaves the state as it
    is; it raises only when there is no ego vehicle. *)
Theorem criteria_is_one_collision_test self s :
  _create_test_criteria self s =
    (match ego_vehicles self with
     | ego :: _ => Ok [CollisionTest ego]
     | [] => Raise IndexError
     end, s).
Proof. apply criteria_run. Qed.

(** ** Initialization *)

(** C8: every supporting actor spawned during initialization has its
    physics enabled immediately after it is spawned and is appended to the
    owned actors before the next actor is spawned.  One call of
    [spawn_actor] spawns the actor, enables its physics and appends it, in
    this order and with nothing in between; in the events of
    [_initialize_actors] every spawn is followed at once by these two
    steps, and at the end every spawned actor has physics enabled and is
    owned. *)
Theorem spawned_with_physics_then_owned self s reference :
  heap s !! _reference_transform self = Some reference →
  (∀ name spec, ∃ s1,
     spawn_actor self name spec (_reference_transform self) s = (Ok (), s1)
     ∧ trace s1 = trace s ++ spawn_events (length (world s)) name
                               (geometry_engine reference spec)
     ∧ world s1 = world s ++ [supporting_actor name (geometry_engine reference spec)]
     ∧ other_actors s1 = other_actors s ++ [length (world s)])
  ∧ ∃ s' new,
      _initialize_actors self s = (Ok (), s')
      ∧ trace s' = trace s ++ new
      ∧ spawn_discipline new
      ∧ ∀ h model spawn_point,
          Spawned h model spawn_point ∈ new →
          simulate_physics <$> world s' !! h = Some true
          ∧ h ∈ other_actors s'.
Proof.
  intros Ha. split.
  - intros name spec. eexists. split; [eapply spawn_actor_run; eassumption|].
    cbn. auto.
  - eexists _, _. split; [eapply initialize_actors_run; eassumption|].
    split; [apply after_spawns_trace|].
    split; [apply spawns_events_discipline|].
    intros h model p Hin.
    rewrite after_spawns_world, after_spawns_other_actors.
    cbn in Hin. cbn [length actors_info seq map].
    set (n := length (world s)) in *.
    repeat (apply elem_of_cons in Hin as [Hin|Hin]);
      try discriminate Hin; try (now apply elem_of_nil in Hin);
      injection Hin as -> _ _.
    + split.
      * now rewrite (list_lookup_middle (world s) _ _ n).
      * set_solver.
    + split.
      * rewrite (cons_middle _ (world s)), app_assoc.
        rewrite (list_lookup_middle _ _ _ (S n)); [reflexivity|].
        rewrite length_app. cbn. subst n. lia.
      * set_solver.
    + split.
      * rewrite (cons_middle _ (world s)), app_assoc.
        rewrite (cons_middle _ (world s ++ _)), app_assoc.
        rewrite (list_lookup_middle _ _ _ (S (S n))); [reflexivity|].
        rewrite !length_app. cbn. subst n. lia.
      * set_solver.
Qed.

(** C10: initialization spawns exactly three supporting actors: the walker,
    the container and the shopping cart, in this order and with their fixed
    placement specs.  The owned actors grow by exactly their three handles
    in that order; when the scenario owned none before, the walker is at
    index 0, and it is the actor the behaviour tree drives. *)
Theorem initialization_spawns_three_actors self s reference :
  heap s !! _reference_transform self = Some reference →
  let walker := mkSpec (of_int 270) (of_int 10) (of_int 5) (of_int 0) in
  let container := mkSpec (of_int 90) (of_int 25) (of_int 0) (of_int 0) in
  let cart := mkSpec (of_int 0) (of_int 2) (of_int 15) (of_int 2) in
  let n := length (world s) in
  actors_info = [ ("walker.*", walker);
                  ("static.prop.container", container);
                  ("static.prop.shoppingcart", cart) ]
  ∧ ∃ s',
      _initialize_actors self s = (Ok (), s')
      ∧ world s' = world s ++
          [ supporting_actor "walker.*" (geometry_engine reference walker);
            supporting_actor "static.prop.container"
              (geometry_engine reference container);
            supporting_actor "static.prop.shoppingcart"
              (geometry_engine reference cart) ]
      ∧ trace s' = trace s ++
          spawn_events n "walker.*" (geometry_engine reference walker)
          ++ spawn_events (S n) "static.prop.container"
               (geometry_engine reference container)
          ++ spawn_events (S (S n)) "static.prop.shoppingcart"
               (geometry_engine reference cart)
      ∧ other_actors s' = other_actors s ++ [n; S n; S (S n)]
      ∧ (other_actors s = [] →
         other_actors s' !! 0%nat = Some n
         ∧ blueprint <$> world s' !! n = Some "walker.*"
         ∧ ∀ ego rest, ego_vehicles self = ego :: rest →
             _create_behavior self s' = (Ok (walker_sequence self ego n), s')).
Proof.
  intros Ha walker container cart n. split; [reflexivity|].
  eexists. split; [eapply initialize_actors_run; eassumption|].
  split; [rewrite after_spawns_world; reflexivity|].
  split; [rewrite after_spawns_trace; reflexivity|].
  split; [rewrite after_spawns_other_actors; reflexivity|].
  intros Hnone. split; [|split].
  - rewrite after_spawns_other_actors, Hnone. reflexivity.
  - rewrite after_spawns_world. cbn [map actors_info].
    now rewrite (list_lookup_middle (world s) _ _ n).
  - intros ego rest Hego. rewrite create_behavior_run.
    rewrite Hego, after_spawns_other_actors, Hnone. reflexivity.
Qed.

End Scenario.

Section Teardown.

Context {num : Type} `{!Simulator num}.

Implicit Types (s : State num) (self : Self num) (h : handle).





End Teardown.

(** * Properties with real-number coordinates *)

Module RealFacts.

Import RealModel.

Local Open Scope R_scope.






(** ** The theorems at concrete scenes *)

(** C2 at the walker, with the reference at the origin. *)
Lemma placement_follows_algorithm_witness :
  heap (holding at_origin) !! 0%nat = Some at_origin
  ∧ ∃ a' s',
      compute_transform walker_spec 0%nat (holding at_origin) = (Ok a', s')
      ∧ heap s' !! a' = Some (geometry_engine at_origin walker_spec).
Proof.
  split; [reflexivity|].
  apply (placement_follows_algorithm (holding at_origin) 0%nat at_origin
           walker_spec).
  reflexivity.
Defined.


(** C4 at a spec without offsets, with the reference at the origin. *)
Lemma zero_offsets_keep_reference_witness :
  (∀ c : R, 0 * c = 0)
  ∧ (∀ c : R, c + 0 = c)
  ∧ heap (holding at_origin) !! 0%nat = Some at_origin
  ∧ ∃ a' s',
      compute_transform no_offset_spec 0%nat (holding at_origin) = (Ok a', s')
      ∧ heap s' !! a' = Some (yaw_offset_only at_origin 270).
Proof.
  split; [exact Rmult_0_l|]. split; [exact Rplus_0_r|].
  split; [reflexivity|].
  assert (∀ c : R, mul (of_int 0) c = of_int 0) as Hmul
    by exact Rmult_0_l.
  assert (∀ c : R, add c (of_int 0) = c) as Hadd
    by exact Rplus_0_r.
  destruct (zero_offsets_keep_reference (holding at_origin) 0%nat at_origin
              no_offset_spec Hmul Hadd eq_refl)
    as (a' & s' & t & Hrun & Ht & Hzero & _).
  exists a', s'. split; [exact Hrun|].
  rewrite Ht. f_equal. apply Hzero; reflexivity.
Defined.

(** C5 at the walker, from two states that differ in the store, in the
    simulator, in the events and in the owned actors. *)
Lemma placement_deterministic_witness :
  heap (holding at_origin) !! 0%nat = Some at_origin
  ∧ heap later_scene !! 7%nat = Some at_origin
  ∧ ∃ t a1' s1' a2' s2' s1'' s2'',
      compute_transform walker_spec 0%nat (holding at_origin) = (Ok a1', s1')
      ∧ compute_transform walker_spec 7%nat later_scene = (Ok a2', s2')
      ∧ heap s1' !! a1' = Some t
      ∧ heap s2' !! a2' = Some t
      ∧ spawn_actor parking_self "walker.*" walker_spec 0%nat
          (holding at_origin) = (Ok (), s1'')
      ∧ spawn_actor parking_self "walker.*" walker_spec 7%nat later_scene
        = (Ok (), s2'')
      ∧ pose <$> last (world s1'') = Some t
      ∧ pose <$> last (world s2'') = Some t.
Proof.
  split; [reflexivity|]. split; [reflexivity|].
  apply (placement_deterministic parking_self parking_self
           (holding at_origin) later_scene 0%nat 7%nat "walker.*" at_origin
           walker_spec).
  - reflexivity.
  - reflexivity.
Defined.

(** C8 in the scene in which the pose of the ego vehicle has been read. *)
Lemma spawned_with_physics_then_owned_witness :
  heap ego_read !! _reference_transform parking_self = Some at_origin
  ∧ ∃ s' new,
      _initialize_actors parking_self ego_read = (Ok (), s')
      ∧ trace s' = trace ego_read ++ new
      ∧ spawn_discipline new
      ∧ ∀ h model spawn_point,
          Spawned h model spawn_point ∈ new →
          simulate_physics <$> world s' !! h = Some true
          ∧ h ∈ other_actors s'.
Proof.
  split; [reflexivity|].
  apply (spawned_with_physics_then_owned parking_self ego_read at_origin).
  reflexivity.
Defined.

(** C9 in the same scene. *)
Lemma reference_transform_unchanged_witness :
  heap ego_read !! _reference_transform parking_self = Some at_origin
  ∧ ∃ s',
      _initialize_actors parking_self ego_read = (Ok (), s')
      ∧ heap s' !! _reference_transform parking_self = Some at_origin
      ∧ (∀ b t, heap ego_read !! b = Some t → heap s' !! b = Some t)
      ∧ pose <$> drop (length (world ego_read)) (world s')
        = (λ entry, geometry_engine at_origin entry.2) <$> actors_info.
Proof.
  split; [reflexivity|].
  apply (reference_transform_unchanged parking_self ego_read at_origin).
  reflexivity.
Defined.

(** C10 in the same scene: the ego vehicle has the handle 0, and the
    walker, the container and the shopping cart get the handles 1, 2
    and 3. *)
Lemma initialization_spawns_three_actors_witness :
  heap ego_read !! _reference_transform parking_self = Some at_origin
  ∧ ∃ s',
      _initialize_actors parking_self ego_read = (Ok (), s')
      ∧ other_actors s' = [1; 2; 3]%nat
      ∧ blueprint <$> world s' = [ "vehicle.ego"; "walker.*";
                                   "static.prop.container";
                                   "static.prop.shoppingcart" ].
Proof.
  split; [reflexivity|].
  destruct (initialization_spawns_three_actors parking_self ego_read at_origin
              eq_refl) as [_ (s' & Hrun & Hworld & _ & Hown & _)].
  exists s'. split; [exact Hrun|]. split; [exact Hown|].
  rewrite Hworld. reflexivity.
Defined.

(** The tree of the scenario once its actors are spawned: the walker, with
    the handle 1, is driven by four leaves that follow the trigger in one
    sequence, and no parallel node is part of the tree. *)
Lemma behavior_tree_in_scene :
  _create_behavior parking_self parked
  = (Ok (Sequence None
           [ InTimeToArrivalToVehicle 0%nat 1%nat 5;
             KeepVelocity 1%nat 4 "walker velocity";
             DriveDistance 1%nat 10 "walker drive distance";
             StopVehicle 1%nat 1 "walker stop";
             Idle 60 ]), parked)
  ∧ composition (walker_sequence parking_self 0%nat 1%nat)
    ≠ specified_composition.
Proof.
  split.
  - rewrite create_behavior_run. reflexivity.
  - discriminate.
Qed.

End RealFacts.

(** * Further properties of the scenario *)

Section Further.

Context {num : Type} `{!Carla num}.

Implicit Types (s : State num) (self : Self num) (t : Transform num).
Implicit Types (a : addr) (h : handle).

(** ** The placement computation *)

(** X1: each key of a placement spec has its own effect.  The location of
    the computed transform does not depend on ['yaw'], its rotation depends
    on ['yaw'] alone, its pitch and roll are those of the reference, and
    ['z'] changes nothing but the vertical coordinate.  The computation
    touches neither the simulator, nor the events, nor the owned actors. *)
Theorem placement_keys_independent s a reference spec1 spec2 :
  heap s !! a = Some reference →
  ∃ a1 s1 t1 a2 s2 t2,
    compute_transform spec1 a s = (Ok a1, s1)
    ∧ heap s1 !! a1 = Some t1
    ∧ compute_transform spec2 a s = (Ok a2, s2)
    ∧ heap s2 !! a2 = Some t2
    ∧ world s1 = world s
    ∧ trace s1 = trace s
    ∧ other_actors s1 = other_actors s
    ∧ pitch (rotation t1) = pitch (rotation reference)
    ∧ roll (rotation t1) = roll (rotation reference)
    ∧ (spec_yaw spec1 = spec_yaw spec2 → rotation t1 = rotation t2)
    ∧ (spec_k spec1 = spec_k spec2 → spec_j spec1 = spec_j spec2 →
       x (location t1) = x (location t2)
       ∧ y (location t1) = y (location t2)
       ∧ (spec_z spec1 = spec_z spec2 → location t1 = location t2)).
Proof.
  intros Ha. eexists _, _, _, _, _, _.
  split; [eapply compute_transform_run; eassumption|].
  split; [cbn; apply lookup_insert_eq|].
  split; [eapply compute_transform_run; eassumption|].
  split; [cbn; apply lookup_insert_eq|].
  rewrite !geometry_engine_coordinates. cbn.
  repeat split; try congruence.
Qed.

(** ** Ownership *)

Lemma after_spawn_in_order reference entry s :
  owned_in_order s → owned_in_order (after_spawn reference entry s).
Proof.
  intros [Hnodup Hall]. split; cbn.
  - apply NoDup_app. split; [assumption|]. split; [|apply NoDup_singleton].
    intros h Hh Hnew. apply list_elem_of_singleton in Hnew as ->.
    destruct (Hall _ Hh) as (act & Hact & _).
    apply lookup_lt_Some in Hact. lia.
  - intros h Hh. apply elem_of_app in Hh as [Hh|Hh].
    + destruct (Hall _ Hh) as (act & Hact & Halive & Hphysics).
      exists act. split; [now apply lookup_app_l_Some|]. auto.
    + apply list_elem_of_singleton in Hh as ->.
      eexists. split; [now apply list_lookup_middle|]. auto.
Qed.

Lemma after_spawns_in_order reference entries s :
  owned_in_order s → owned_in_order (after_spawns reference entries s).
Proof.
  revert s. induction entries as [|entry entries IH]; intros s Hs; cbn.
  - assumption.
  - apply IH. now apply after_spawn_in_order.
Qed.

(** X2: [spawn_actor] and [_initialize_actors] keep the owned actors in
    order: when no actor is owned twice and every owned actor is alive in
    the simulator with its physics simulated, the same holds afterwards,
    the new actors included. *)
Theorem spawning_keeps_owned_in_order self s reference :
  owned_in_order s →
  heap s !! _reference_transform self = Some reference →
  (∀ name spec, ∃ s1,
     spawn_actor self name spec (_reference_transform self) s = (Ok (), s1)
     ∧ owned_in_order s1)
  ∧ ∃ s', _initialize_actors self s = (Ok (), s') ∧ owned_in_order s'.
Proof.
  intros Hs Ha. split.
  - intros name spec. eexists. split; [eapply spawn_actor_run; eassumption|].
    now apply after_spawn_in_order.
  - eexists. split; [eapply initialize_actors_run; eassumption|].
    now apply after_spawns_in_order.
Qed.

(** X3: initialization has no guard against being run again, and offsets
    do not compound: a second run of [_initialize_actors] spawns three more
    actors, at the poses of the first three, and the scenario owns all
    six. *)
Theorem initialization_twice self s reference :
  heap s !! _reference_transform self = Some reference →
  ∃ s1 s2,
    _initialize_actors self s = (Ok (), s1)
    ∧ _initialize_actors self s1 = (Ok (), s2)
    ∧ pose <$> drop (length (world s)) (world s2)
      = ((λ entry, geometry_engine reference entry.2) <$> actors_info)
        ++ ((λ entry, geometry_engine reference entry.2) <$> actors_info)
    ∧ other_actors s2 = other_actors s ++ seq (length (world s)) 6.
Proof.
  intros Ha. eexists _, _.
  split; [eapply initialize_actors_run; eassumption|].
  split; [eapply initialize_actors_run; now apply after_spawns_reference|].
  split.
  - rewrite !after_spawns_world, <- app_assoc, drop_app_length.
    now rewrite fmap_app.
  - rewrite !after_spawns_other_actors, after_spawns_world, <- app_assoc.
    rewrite length_app. cbn [length actors_info map].
    replace (length (world s) + 3)%nat with (3 + length (world s))%nat by lia.
    reflexivity.
Qed.

(** ** The tree *)

(** X4: whatever further ego vehicles and other actors there are, the tree
    has its trigger on the first ego vehicle and the first of the other
    actors, with the threshold 5, and its velocity, distance and stop
    leaves on the first of the other actors, with the target velocity and
    the brake of the scenario and the distance 10, before it idles for 60.
    No other actor is referred to, and the tree is the same for any further
    ego vehicles and other actors. *)
Theorem tree_refers_to_first_actors self s ego evs walker others :
  ego_vehicles self = ego :: evs →
  other_actors s = walker :: others →
  ∃ tree,
    (_create_behavior self s).1 = Ok tree
    ∧ tree = Sequence None
        [ InTimeToArrivalToVehicle ego walker (of_int 5);
          KeepVelocity walker (_other_actor_target_velocity self)
            "walker velocity";
          DriveDistance walker (of_int 10) "walker drive distance";
          StopVehicle walker (_other_actor_max_brake self) "walker stop";
          Idle (of_int 60) ]
    ∧ actors_of tree = [ego; walker; walker; walker; walker]
    ∧ ∀ self' s' evs' others',
        ego_vehicles self' = ego :: evs' →
        other_actors s' = walker :: others' →
        _other_actor_target_velocity self' = _other_actor_target_velocity self →
        _other_actor_max_brake self' = _other_actor_max_brake self →
        (_create_behavior self' s').1 = Ok tree.
Proof.
  intros Hego Hothers. exists (walker_sequence self ego walker).
  split; [|split; [|split]].
  - rewrite create_behavior_run, Hego, Hothers. reflexivity.
  - reflexivity.
  - reflexivity.
  - intros self' s' evs' others' Hego' Hothers' Hvelocity Hbrake.
    rewrite create_behavior_run, Hego', Hothers'. cbn.
    unfold walker_sequence. now rewrite Hvelocity, Hbrake.
Qed.

End Further.

(** * Further properties at concrete scenes *)

Module RealExtras.

Import RealModel.

Local Open Scope R_scope.

(** ** The further theorems at concrete scenes *)

(** X1 at the walker and at a spec that differs from it in the yaw alone. *)
Lemma placement_keys_independent_witness :
  heap (holding at_origin) !! 0%nat = Some at_origin
  ∧ ∃ a1 s1 t1 a2 s2 t2,
      compute_transform walker_spec 0%nat (holding at_origin) = (Ok a1, s1)
      ∧ heap s1 !! a1 = Some t1
      ∧ compute_transform (mkSpec 90 10 5 0) 0%nat (holding at_origin)
        = (Ok a2, s2)
      ∧ heap s2 !! a2 = Some t2
      ∧ location t1 = location t2.
Proof.
  split; [reflexivity|].
  destruct (placement_keys_independent (holding at_origin) 0%nat at_origin
              walker_spec (mkSpec 90 10 5 0) eq_refl)
    as (a1 & s1 & t1 & a2 & s2 & t2 & Hrun1 & Ht1 & Hrun2 & Ht2 & _ & _ & _
        & _ & _ & _ & Hlocation).
  exists a1, s1, t1, a2, s2, t2. repeat (split; [assumption|]).
  now apply Hlocation.
Defined.

(** X2 in the scene in which the three supporting actors are spawned: a
    further initialization keeps the six owned actors in order. *)
Lemma spawning_keeps_owned_in_order_witness :
  owned_in_order parked
  ∧ heap parked !! _reference_transform parking_self = Some at_origin
  ∧ ∃ s', _initialize_actors parking_self parked = (Ok (), s')
          ∧ owned_in_order s'.
Proof.
  assert (owned_in_order parked) as Hparked.
  { apply after_spawns_in_order. split; [constructor|].
    intros h Hh. now apply elem_of_nil in Hh. }
  split; [exact Hparked|]. split; [reflexivity|].
  apply (spawning_keeps_owned_in_order parking_self parked at_origin Hparked).
  reflexivity.
Defined.

(** X3 in the scene in which the pose of the ego vehicle has been read. *)
Lemma initialization_twice_witness :
  heap ego_read !! _reference_transform parking_self = Some at_origin
  ∧ ∃ s1 s2,
      _initialize_actors parking_self ego_read = (Ok (), s1)
      ∧ _initialize_actors parking_self s1 = (Ok (), s2)
      ∧ other_actors s2 = [1; 2; 3; 4; 5; 6]%nat.
Proof.
  split; [reflexivity|].
  destruct (initialization_twice parking_self ego_read at_origin eq_refl)
    as (s1 & s2 & Hrun1 & Hrun2 & _ & Hown).
  exists s1, s2. auto.
Defined.

(** X4 in the scene in which the three supporting actors are spawned. *)
Lemma tree_refers_to_first_actors_witness :
  ego_vehicles parking_self = [0%nat]
  ∧ other_actors parked = [1; 2; 3]%nat
  ∧ ∃ tree,
      (_create_behavior parking_self parked).1 = Ok tree
      ∧ actors_of tree = [0; 1; 1; 1; 1]%nat.
Proof.
  split; [reflexivity|]. split; [reflexivity|].
  destruct (tree_refers_to_first_actors parking_self parked 0%nat [] 1%nat
              [2; 3]%nat eq_refl eq_refl)
    as (tree & Hrun & _ & Hactors & _).
  exists tree. auto.
Defined.

End RealExtras.
